(** * parse_type: cardinality patterns and type-converter builders

    A shallow embedding of [parse_type.py]: the class [Cardinality], which
    builds regular-expression source text, and the class [TypeBuilder], whose
    methods wrap a type-converter ("parse type") into a converter for
    optional values, lists, enumerations and choices.

    A text is a [string]: each of its characters stands for the Python
    character with the same code point.  What Python knows of characters,
    which of them are whitespace and what the lowercase form of a text is,
    is kept apart in the class [Chars]: the converters and their properties
    are stated for every instance of it, and [python3] is the instance of
    Python 3 on code points below 256.  A Python call that may raise is a
    computation in the [result] monad. *)

From Stdlib Require Import Ascii.
From Stdlib Require String.
From stdpp Require Import base option list strings gmap.


(** ** Exceptions and results *)

Inductive exn : Type :=
| AssertionError
| KeyError (key : string)
| ValueError (msg : string)
| TypeError (msg : string)
| OtherError (name : string).

Inductive result (A : Type) : Type :=
| Return (v : A)
| Raise (e : exn).

Arguments Return {A} v.
Arguments Raise {A} e.

#[global] Instance result_ret : MRet result := fun A v => Return v.

#[global] Instance result_bind : MBind result := fun A B f m =>
  match m with
  | Return v => f v
  | Raise e => Raise e
  end.

#[global] Instance result_fmap : FMap result := fun A B f m =>
  match m with
  | Return v => Return (f v)
  | Raise e => Raise e
  end.

(** [assert cond] *)
Definition py_assert (cond : bool) : result unit :=
  if cond then Return tt else Raise AssertionError.

(** ** Characters

    [isspace c] is [c.isspace()], the characters that [str.strip()] removes;
    [lower s] is [s.lower()]. *)

Class Chars : Type := {
  isspace : ascii → bool;
  lower : string → string
}.

(** Python 3 on the code points below 256: whitespace is 9 to 13, 28 to 32,
    133 and 160; the uppercase letters are A to Z and, of the code points 192
    to 222, all but the multiplication sign 215, and each has its lowercase
    form 32 further on. *)

Module Python3.

Definition isspace (c : ascii) : bool :=
  let n := nat_of_ascii c in
  (9 <=? n)%nat && (n <=? 13)%nat || (28 <=? n)%nat && (n <=? 32)%nat ||
  (n =? 133)%nat || (n =? 160)%nat.

Definition lower_char (c : ascii) : ascii :=
  let n := nat_of_ascii c in
  if (65 <=? n)%nat && (n <=? 90)%nat ||
     (192 <=? n)%nat && (n <=? 222)%nat && negb (n =? 215)%nat
  then ascii_of_nat (n + 32) else c.

Fixpoint lower (s : string) : string :=
  match s with
  | "" => ""
  | String c s' => String (lower_char c) (lower s')
  end.

End Python3.

Definition python3 : Chars :=
  {| isspace := Python3.isspace; lower := Python3.lower |}.

#[global] Existing Instance python3.

(** ** The string methods the module calls *)

Module Str.

(** Truth value of a text that may be [None]: [None] and [""] are false. *)
Definition truthy (text : option string) : bool :=
  match text with
  | Some (String _ _) => true
  | _ => false
  end.

Fixpoint lstrip `{Chars} (s : string) : string :=
  match s with
  | "" => ""
  | String c s' => if isspace c then lstrip s' else s
  end.

Fixpoint rstrip `{Chars} (s : string) : string :=
  match s with
  | "" => ""
  | String c s' =>
      match rstrip s' with
      | "" => if isspace c then "" else String c ""
      | r => String c r
      end
  end.

(** [s.strip()] *)
Definition strip `{Chars} (s : string) : string := rstrip (lstrip s).

Fixpoint take (n : nat) (s : string) : string :=
  match n, s with
  | S n', String c s' => String c (take n' s')
  | _, _ => ""
  end.

Fixpoint drop (n : nat) (s : string) : string :=
  match n, s with
  | S n', String _ s' => drop n' s'
  | _, _ => s
  end.

(** [s.startswith(sub)] *)
Fixpoint startswith (s sub : string) : bool :=
  match sub, s with
  | "", _ => true
  | String _ _, "" => false
  | String a sub', String b s' => Ascii.eqb a b && startswith s' sub'
  end.

(** [s.find(sub)]: the index of the leftmost occurrence, [None] for -1. *)
Fixpoint find (sub s : string) : option nat :=
  if startswith s sub then Some 0
  else match s with
       | "" => None
       | String _ s' => S <$> find sub s'
       end.

(** The loop of [s.split(sep)] for a non-empty [sep]: cut at the leftmost
    occurrence, go on behind it.  Each round drops at least one character,
    so [String.length s] rounds are enough. *)
Fixpoint split_loop (fuel : nat) (sep s : string) : list string :=
  match fuel with
  | 0 => [s]
  | S fuel' =>
      match find sep s with
      | None => [s]
      | Some pos =>
          take pos s :: split_loop fuel' sep (drop (pos + String.length sep) s)
      end
  end.

(** [s.split(sep)] *)
Definition split (sep s : string) : result (list string) :=
  if decide (sep = "") then Raise (ValueError "empty separator")
  else Return (split_loop (String.length s) sep s).

(** [sep.join(items)] *)
Fixpoint join (sep : string) (items : list string) : string :=
  match items with
  | [] => ""
  | [a] => a
  | a :: rest => a +:+ sep +:+ join sep rest
  end.

(** [fmt % args] with the conversions [%s] and [%%]. *)
Fixpoint percent (fmt : string) (args : list string) : result string :=
  match fmt with
  | "" =>
      match args with
      | [] => Return ""
      | _ :: _ =>
          Raise (TypeError "not all arguments converted during string formatting")
      end
  | String c fmt' =>
      if Ascii.eqb c "%" then
        match fmt' with
        | "" => Raise (ValueError "incomplete format")
        | String d fmt'' =>
            if Ascii.eqb d "s" then
              match args with
              | [] => Raise (TypeError "not enough arguments for format string")
              | a :: args' => r ← percent fmt'' args'; Return (a +:+ r)
              end
            else if Ascii.eqb d "%" then
              r ← percent fmt'' args; Return (String "%" r)
            else Raise (ValueError "unsupported format character")
        end
      else r ← percent fmt' args; Return (String c r)
  end.

(** [l.index(x)] *)
Fixpoint index (x : string) (l : list string) : result nat :=
  match l with
  | [] => Raise (ValueError "x not in list")
  | y :: l' => if decide (y = x) then Return 0 else S <$> index x l'
  end.

End Str.

(** ** Callable objects

    An object that can be called has a truth value as any object has: true
    for a function, and for an instance of a class what its [__bool__] or
    [__len__] says. *)

Record callable (V : Type) : Type := Callable {
  call : string → result V;
  truth : bool
}.

Arguments Callable {V} call truth.
Arguments call {V} c text.
Arguments truth {V} c.

(** ** Function objects

    A type-converter is a function that carries attributes: [pattern], and
    for the list converters [max_size].  [I] is what the function is called
    with, [V] what it returns. *)

Record converter (I V : Type) : Type := Converter {
  convert : I → result V;
  pattern : option string;
  max_size : option nat
}.

Arguments Converter {I V} convert pattern max_size.
Arguments convert {I V} c text.
Arguments pattern {I V} c.
Arguments max_size {I V} c.

(** ** class Cardinality *)

Module Cardinality.

Definition make_zero_or_one_pattern (pattern : string) : result string :=
  Str.percent "(%s)?" [pattern].

Definition make_zero_or_more_pattern (pattern listsep : string) : result string :=
  Str.percent "(%s)?(\s*%s\s*(%s))*" [pattern; listsep; pattern].

Definition make_one_or_more_pattern (pattern listsep : string) : result string :=
  Str.percent "(%s)(\s*%s\s*(%s))*" [pattern; listsep; pattern].

End Cardinality.

(** ** class TypeBuilder *)

Module TypeBuilder.

Definition default_pattern : string := ".+?".

(** [getattr(parse_type, "pattern", cls.default_pattern)] *)
Definition pattern_of {I V} (parse_type : converter I V) : string :=
  default default_pattern (pattern parse_type).

Section Cardinalities.
Context `{Chars} {V : Type}.
Variable parse_type : string → result V.

Definition parse_optional (text : option string) : result (option V) :=
  let text := if Str.truthy text then Str.strip <$> text else text in
  match text with
  | Some (String _ _ as text) => Some <$> parse_type text
  | _ => Return None
  end.

Definition parse_list0 (listsep : string) (text : option string)
  : result (list V) :=
  let text := if Str.truthy text then Str.strip <$> text else text in
  match text with
  | Some (String _ _ as text) =>
      texts ← Str.split listsep text;
      mapM (λ texti, parse_type (Str.strip texti)) texts
  | _ => Return []
  end.

Definition parse_list (listsep : string) (text : string) : result (list V) :=
  texts ← Str.split listsep text;
  mapM (λ texti, parse_type (Str.strip texti)) texts.

End Cardinalities.

Definition with_zero_or_one `{Chars} {V} (parse_type : converter string V)
  : result (converter (option string) (option V)) :=
  new_pattern ← Cardinality.make_zero_or_one_pattern (pattern_of parse_type);
  Return (Converter (parse_optional (convert parse_type)) (Some new_pattern) None).

Definition with_zero_or_more `{Chars} {V} (parse_type : converter string V)
    (listsep : string) (max_size : option nat)
  : result (converter (option string) (list V)) :=
  list_pattern ←
    Cardinality.make_zero_or_more_pattern (pattern_of parse_type) listsep;
  Return (Converter (parse_list0 (convert parse_type) listsep)
            (Some list_pattern) max_size).

Definition with_one_or_more `{Chars} {V} (parse_type : converter string V)
    (listsep : string) (max_size : option nat)
  : result (converter string (list V)) :=
  list_pattern ←
    Cardinality.make_one_or_more_pattern (pattern_of parse_type) listsep;
  Return (Converter (parse_list (convert parse_type) listsep)
            (Some list_pattern) max_size).

Definition with_optional `{Chars} {V} (parse_type : converter string V) :=
  with_zero_or_one parse_type.

Definition with_many `{Chars} {V} (parse_type : converter string V) :=
  with_one_or_more parse_type.

(** [mappings[text]] *)
Definition getitem {V} (mappings : gmap string V) (text : string) : result V :=
  match mappings !! text with
  | Some v => Return v
  | None => Raise (KeyError text)
  end.

(** The text [parse_enum] looks up: [text], rebound to [text.lower()] when
    [text not in parse_enum.mappings]. *)
Definition enum_key `{Chars} {V} (mappings : gmap string V) (text : string) : string :=
  if bool_decide (text ∉ dom mappings) then lower text else text.

Definition parse_enum `{Chars} {V} (mappings : gmap string V) (text : string) : result V :=
  let text := enum_key mappings text in
  getitem mappings text.

Definition parse_choice {V} (choices : list string)
    (value_converter : option (callable V)) (text : string)
  : result (string + V) :=
  _ ← py_assert (bool_decide (text ∈ choices));
  match value_converter with
  | Some value_converter =>
      if truth value_converter then inr <$> call value_converter text
      else Return (inl text)
  | None => Return (inl text)
  end.

Definition parse_choice2 (choices : list string) (text : string)
  : result (option (nat * string)) :=
  _ ← py_assert (bool_decide (text ∈ choices));
  if negb (Str.truthy (Some text)) then Return None
  else
    index ← Str.index text choices;
    Return (Some (index, text)).

(** [enum_mappings] lists the items of the dictionary in insertion order,
    the order of [keys()]. *)
Definition make_enum `{Chars} {V} (enum_mappings : list (string * V))
  : converter string V :=
  Converter (parse_enum (list_to_map enum_mappings))
    (Some (Str.join "|" enum_mappings.*1)) None.

Definition make_choice {V} (choices : list string)
    (value_converter : option (callable V))
  : converter string (string + V) :=
  Converter (parse_choice choices value_converter)
    (Some (Str.join "|" choices)) None.

Definition make_choice2 (choices : list string)
  : converter string (option (nat * string)) :=
  Converter (parse_choice2 choices) (Some (Str.join "|" choices)) None.

End TypeBuilder.

Import TypeBuilder.

(** ** Vocabulary of the properties *)

(** [all_space s]: [s] is empty or holds whitespace only. *)
Fixpoint all_space `{Chars} (s : string) : bool :=
  match s with
  | "" => true
  | String c s' => isspace c && all_space s'
  end.

(** C5 read by its words: the list for a text that is not blank is got by
    splitting the text itself, stripping each part and converting it. *)
Definition parse_list0_as_stated `{Chars} {V} (base : string → result V)
    (sep : string) (t : string) : result (list V) :=
  if all_space t then Return []
  else
    parts ← Str.split sep t;
    mapM base (Str.strip <$> parts).

(** [separable sep a]: in [a] followed by [sep], the leftmost occurrence of
    [sep] is the one that follows [a]. *)
Definition separable (sep a : string) : Prop :=
  Str.find sep (a +:+ sep) = Some (String.length a).


(** What [split] needs to give back the items of a joined text. *)
Fixpoint splittable (sep : string) (items : list string) : Prop :=
  match items with
  | [] => True
  | [a] => Str.find sep a = None
  | a :: rest => separable sep a ∧ splittable sep rest
  end.

(** The first character of a separator is no whitespace. *)
Definition starts_solid `{Chars} (sep : string) : bool :=
  match sep with
  | "" => false
  | String c _ => negb (isspace c)
  end.

(** The last character of a separator is no whitespace. *)
Fixpoint ends_solid `{Chars} (sep : string) : bool :=
  match sep with
  | "" => false
  | String c "" => negb (isspace c)
  | String _ rest => ends_solid rest
  end.

(** The parts with [w] appended to the last one. *)
Fixpoint app_last (w : string) (parts : list string) : list string :=
  match parts with
  | [] => []
  | [p] => [p +:+ w]
  | p :: rest => p :: app_last w rest
  end.

(** The parts with the character [c] put before the first one. *)
Definition cons_head (c : ascii) (parts : list string) : list string :=
  match parts with
  | [] => []
  | p :: rest => String c p :: rest
  end.

(** [stripped x]: stripping leaves [x] as it is. *)
Definition stripped `{Chars} (x : string) : Prop := Str.strip x = x.

(** [s.count(c)] for a single character [c]. *)
Fixpoint count_char (c : ascii) (s : string) : nat :=
  match s with
  | "" => 0
  | String b s' => (if Ascii.eqb c b then 1 else 0) + count_char c s'
  end.

(** * Properties *)

Example split_commas : Str.split "," "1, 2, 3" = Return ["1"; " 2"; " 3"].
Proof. reflexivity. Qed.

Example split_overlap : Str.split "aa" "aaaa" = Return [""; ""; ""].
Proof. reflexivity. Qed.

Example split_empty_text : Str.split "," "" = Return [""].
Proof. reflexivity. Qed.

Example split_adjacent : Str.split "," ",a,,b," = Return [""; "a"; ""; "b"; ""].
Proof. reflexivity. Qed.

Example split_empty_separator :
  Str.split "" "a,b" = Raise (ValueError "empty separator").
Proof. reflexivity. Qed.

Example strip_both : Str.strip "  a b  " = "a b".
Proof. reflexivity. Qed.

Example lower_mixed : lower "YeS-9" = "yes-9".
Proof. reflexivity. Qed.

Example strip_unit_separator : Str.strip (String "031" "a") = "a".
Proof. reflexivity. Qed.

Example strip_no_break_space : Str.strip (String "160" (String "133" "")) = "".
Proof. reflexivity. Qed.

Example strip_keeps_inner : Str.strip (String "028" "a b" +:+ String "029" "") = "a b".
Proof. reflexivity. Qed.

Example lower_e_acute : lower (String "201" "A") = String "233" "a".
Proof. reflexivity. Qed.

Example lower_keeps_times_and_sharp_s :
  lower (String "215" (String "223" (String "255" ""))) =
  String "215" (String "223" (String "255" "")).
Proof. reflexivity. Qed.

Example percent_zero_or_more :
  Cardinality.make_zero_or_more_pattern "\d+" "," = Return "(\d+)?(\s*,\s*(\d+))*".
Proof. reflexivity. Qed.

Example enum_yes :
  convert (make_enum [("yes", true); ("no", false)]) "YES" = Return true.
Proof. vm_compute. reflexivity. Qed.

Example choice2_no : parse_choice2 ["yes"; "no"] "no" = Return (Some (1, "no")).
Proof. vm_compute. reflexivity. Qed.

Example list_numbers :
  parse_list (λ t, Return (String.length t)) "," "1, 22, 333" = Return [1; 2; 3].
Proof. vm_compute. reflexivity. Qed.

(** ** The result monad *)

Lemma mapM_compose {A B C} (f : B → result C) (g : A → B) (l : list A) :
  mapM (λ x, f (g x)) l = mapM f (g <$> l).
Proof.
  induction l as [|x l IH]; [reflexivity|].
  cbn. destruct (f (g x)); [|reflexivity].
  cbn in IH |- *. now rewrite IH.
Qed.

(** ** Whitespace *)

Lemma lstrip_empty_iff `{Chars} s : Str.lstrip s = "" ↔ all_space s = true.
Proof.
  induction s as [|c s IH]; cbn; [tauto|].
  destruct (isspace c); cbn; [exact IH|].
  split; discriminate.
Qed.

Lemma rstrip_empty_iff `{Chars} s : Str.rstrip s = "" ↔ all_space s = true.
Proof.
  induction s as [|c s IH]; cbn; [tauto|].
  destruct (Str.rstrip s) eqn:Hr.
  - destruct (isspace c); cbn; [tauto|]. split; discriminate.
  - split; [discriminate|]. intros [_ Hs]%andb_prop.
    apply IH in Hs. discriminate.
Qed.

Lemma rstrip_cons `{Chars} c s :
  Str.rstrip (String c s) =
  if all_space (String c s) then "" else String c (Str.rstrip s).
Proof.
  cbn. destruct (Str.rstrip s) eqn:Hr.
  - assert (all_space s = true) as -> by now apply rstrip_empty_iff.
    now destruct (isspace c).
  - assert (all_space s = false) as ->; [|now rewrite andb_false_r].
    destruct (all_space s) eqn:Hs; [|reflexivity].
    apply rstrip_empty_iff in Hs. congruence.
Qed.

Lemma all_space_lstrip `{Chars} s : all_space (Str.lstrip s) = all_space s.
Proof.
  induction s as [|c s IH]; [reflexivity|].
  cbn. destruct (isspace c) eqn:Hc; cbn; [exact IH|].
  now rewrite Hc.
Qed.

Lemma strip_empty_iff `{Chars} s : Str.strip s = "" ↔ all_space s = true.
Proof.
  unfold Str.strip. now rewrite rstrip_empty_iff, all_space_lstrip.
Qed.

Lemma strip_blank `{Chars} s : all_space s = true → Str.strip s = "".
Proof. apply strip_empty_iff. Qed.

Lemma strip_nonblank `{Chars} s :
  all_space s = false → ∃ c r, Str.strip s = String c r.
Proof.
  intros Hs. destruct (Str.strip s) as [|c r] eqn:Hst; [|eauto].
  apply strip_empty_iff in Hst. congruence.
Qed.

(** ** Texts *)

Lemma app_cons c (a b : string) : String c a +:+ b = String c (a +:+ b).
Proof. reflexivity. Qed.


Lemma app_assoc (a b c : string) : (a +:+ b) +:+ c = a +:+ b +:+ c.
Proof. induction a as [|x a IH]; [reflexivity|]. now rewrite !app_cons, IH. Qed.

Lemma length_app (a b : string) :
  String.length (a +:+ b) = String.length a + String.length b.
Proof. induction a as [|x a IH]; [reflexivity|]. rewrite app_cons. cbn. now rewrite IH. Qed.

Lemma take_app (a x : string) : Str.take (String.length a) (a +:+ x) = a.
Proof. induction a as [|c a IH]; [now destruct x|]. rewrite app_cons. cbn. now rewrite IH. Qed.

Lemma drop_app (a x : string) (n : nat) :
  Str.drop (String.length a + n) (a +:+ x) = Str.drop n x.
Proof. induction a as [|c a IH]; [reflexivity|]. rewrite app_cons. cbn. exact IH. Qed.

Lemma drop_all_app (a x : string) : Str.drop (String.length a) (a +:+ x) = x.
Proof.
  rewrite <- (Nat.add_0_r (String.length a)), drop_app. now destruct x.
Qed.

Lemma length_drop (n : nat) (s : string) :
  String.length (Str.drop n s) = String.length s - n.
Proof.
  revert s. induction n as [|n IH]; intros [|c s]; cbn; try reflexivity.
  apply IH.
Qed.

Lemma all_space_app `{Chars} (a b : string) :
  all_space (a +:+ b) = all_space a && all_space b.
Proof.
  induction a as [|c a IH]; [reflexivity|].
  rewrite app_cons. cbn. now rewrite IH, andb_assoc.
Qed.

(** ** Occurrences *)

Lemma startswith_app (sub rest : string) : Str.startswith (sub +:+ rest) sub = true.
Proof.
  induction sub as [|c sub IH]; [now destruct rest|].
  rewrite app_cons. cbn. now rewrite Ascii.eqb_refl, IH.
Qed.

Lemma startswith_length (s sub : string) :
  Str.startswith s sub = true → String.length sub ≤ String.length s.
Proof.
  revert s. induction sub as [|c sub IH]; intros s H; cbn; [lia|].
  destruct s as [|b s]; [discriminate|].
  cbn in H. apply andb_prop in H as [_ H]. apply IH in H. cbn. lia.
Qed.

Lemma startswith_app_long (x rest sub : string) :
  String.length sub ≤ String.length x →
  Str.startswith (x +:+ rest) sub = Str.startswith x sub.
Proof.
  revert x. induction sub as [|c sub IH]; intros x Hlen.
  - now destruct x, rest.
  - destruct x as [|b x]; [cbn in Hlen; lia|].
    rewrite app_cons. cbn. rewrite IH; [reflexivity|]. cbn in Hlen. lia.
Qed.

Lemma find_cons (sub : string) c (s : string) :
  Str.find sub (String c s) =
  if Str.startswith (String c s) sub then Some 0 else S <$> Str.find sub s.
Proof. reflexivity. Qed.

Lemma find_Some_length (sub s : string) (i : nat) :
  Str.find sub s = Some i → i + String.length sub ≤ String.length s.
Proof.
  revert i. induction s as [|c s IH]; intros i.
  - destruct sub; cbn; [intros [= <-]; lia | discriminate].
  - rewrite find_cons. destruct (Str.startswith (String c s) sub) eqn:Hp.
    + intros [= <-]. now apply startswith_length in Hp.
    + destruct (Str.find sub s) as [j|]; [|discriminate].
      intros [= <-]. specialize (IH j eq_refl). cbn. lia.
Qed.

Lemma find_app_Some (sub s x : string) (i : nat) :
  Str.find sub s = Some i → Str.find sub (s +:+ x) = Some i.
Proof.
  revert i. induction s as [|c s IH]; intros i.
  - destruct sub; cbn; [intros [= <-]; now destruct x | discriminate].
  - rewrite app_cons, !find_cons.
    destruct (Str.startswith (String c s) sub) eqn:Hp.
    + intros [= <-]. rewrite <- app_cons, startswith_app_long, Hp; [reflexivity|].
      now apply startswith_length.
    + destruct (Str.find sub s) as [j|] eqn:Hj; [|discriminate].
      intros [= <-]. rewrite <- app_cons, startswith_app_long, Hp.
      * now rewrite (IH j).
      * apply find_Some_length in Hj. cbn. lia.
Qed.

Lemma find_None_prefix (sub x w : string) :
  Str.find sub (x +:+ w) = None → Str.find sub x = None.
Proof.
  intros H. destruct (Str.find sub x) as [i|] eqn:Hx; [|reflexivity].
  apply (find_app_Some _ _ w) in Hx. congruence.
Qed.

Lemma find_None_suffix (sub w x : string) :
  Str.find sub (w +:+ x) = None → Str.find sub x = None.
Proof.
  induction w as [|c w IH]; [trivial|].
  rewrite app_cons, find_cons.
  destruct (Str.startswith _ sub); [discriminate|].
  destruct (Str.find sub (w +:+ x)); [discriminate|]. auto.
Qed.



Lemma separable_find_None (sep a : string) :
  sep ≠ "" → separable sep a → Str.find sep a = None.
Proof.
  intros Hsep Ha. destruct (Str.find sep a) as [i|] eqn:Hi; [|reflexivity].
  pose proof (find_Some_length _ _ _ Hi) as Hlen.
  apply (find_app_Some _ _ sep) in Hi. unfold separable in Ha.
  destruct sep; [congruence|]. cbn in Hlen. assert (i = String.length a) by congruence. lia.
Qed.


Lemma find_separable_app (sep a rest : string) :
  separable sep a → Str.find sep (a +:+ sep +:+ rest) = Some (String.length a).
Proof.
  intros Ha. rewrite <- app_assoc. now apply find_app_Some.
Qed.

(** A single character that does not occur in [a] separates [a]. *)
Lemma separable_char c (a : string) :
  Str.find (String c "") a = None → separable (String c "") a.
Proof.
  unfold separable. induction a as [|b a IH].
  - intros _. change (Str.find (String c "") (String c "") = Some 0).
    cbn. now rewrite Ascii.eqb_refl.
  - rewrite app_cons, !find_cons.
    destruct (Str.startswith (String b a) _) eqn:Hp; [discriminate|].
    destruct (Str.find (String c "") a) eqn:Hf; [discriminate|].
    intros _. rewrite <- app_cons, startswith_app_long, Hp by (cbn; lia).
    now rewrite IH.
Qed.

(** ** Splitting *)

Lemma split_loop_None (fuel : nat) (sep s : string) :
  Str.find sep s = None → Str.split_loop fuel sep s = [s].
Proof. intros H. destruct fuel; [reflexivity|]. cbn. now rewrite H. Qed.

(** More fuel than the length of the text changes nothing. *)
Lemma split_loop_fuel (sep : string) (n m : nat) (s : string) :
  sep ≠ "" → String.length s ≤ n → String.length s ≤ m →
  Str.split_loop n sep s = Str.split_loop m sep s.
Proof.
  intros Hsep. revert m s. induction n as [|n IH]; intros m s Hn Hm.
  - destruct s; [|cbn in Hn; lia].
    destruct sep; [congruence|]. now destruct m.
  - destruct m as [|m].
    + destruct s; [|cbn in Hm; lia]. destruct sep; [congruence|]. reflexivity.
    + cbn. destruct (Str.find sep s) as [pos|] eqn:Hpos; [|reflexivity].
      f_equal. destruct sep as [|c sep]; [congruence|].
      apply IH; rewrite length_drop; cbn; lia.
Qed.

(** [split] cuts at the leftmost occurrence and goes on behind it. *)
Lemma split_unfold (sep s : string) :
  sep ≠ "" →
  Str.split sep s =
  match Str.find sep s with
  | None => Return [s]
  | Some pos =>
      rest ← Str.split sep (Str.drop (pos + String.length sep) s);
      Return (Str.take pos s :: rest)
  end.
Proof.
  intros Hsep. unfold Str.split.
  destruct (decide (sep = "")) as [|_]; [congruence|].
  destruct (Str.find sep s) as [pos|] eqn:Hpos.
  - change (Return (Str.split_loop (String.length s) sep s) =
            Return (Str.take pos s ::
                    Str.split_loop
                      (String.length (Str.drop (pos + String.length sep) s))
                      sep (Str.drop (pos + String.length sep) s))).
    f_equal. destruct (String.length s) as [|n] eqn:Hn.
    + apply find_Some_length in Hpos. destruct sep; [congruence|]. cbn in Hpos. lia.
    + cbn. rewrite Hpos. f_equal.
      apply split_loop_fuel; [assumption| |lia].
      rewrite length_drop. destruct sep; [congruence|cbn; lia].
  - now rewrite split_loop_None.
Qed.

Lemma split_loop_join (sep : string) (items : list string) (fuel : nat) :
  sep ≠ "" → items ≠ [] → splittable sep items →
  String.length (Str.join sep items) ≤ fuel →
  Str.split_loop fuel sep (Str.join sep items) = items.
Proof.
  intros Hsep. revert fuel.
  assert (0 < String.length sep) as Hpos
    by (destruct sep; [congruence|cbn; lia]).
  induction items as [|a [|b rest] IH]; intros fuel Hne Hs Hfuel; [congruence| |].
  - now apply split_loop_None.
  - destruct Hs as [Ha Hs].
    change (Str.join sep (a :: b :: rest))
      with (a +:+ sep +:+ Str.join sep (b :: rest)) in *.
    rewrite !length_app in Hfuel.
    destruct fuel as [|fuel]; [lia|].
    cbn [Str.split_loop]. rewrite find_separable_app by assumption.
    rewrite take_app, drop_app, drop_all_app.
    f_equal. apply IH; [discriminate|assumption|lia].
Qed.

Lemma split_join (sep : string) (items : list string) :
  sep ≠ "" → items ≠ [] → splittable sep items →
  Str.split sep (Str.join sep items) = Return items.
Proof.
  intros Hsep Hne Hs. unfold Str.split. rewrite decide_False by assumption.
  f_equal. now apply split_loop_join.
Qed.

(** ** Stripping *)

Lemma all_space_rstrip `{Chars} s : all_space (Str.rstrip s) = all_space s.
Proof.
  induction s as [|c s IH]; [reflexivity|].
  rewrite rstrip_cons. destruct (all_space (String c s)) eqn:Hs; [reflexivity|].
  cbn in Hs |- *. now rewrite IH.
Qed.

Lemma lstrip_idemp `{Chars} s : Str.lstrip (Str.lstrip s) = Str.lstrip s.
Proof.
  induction s as [|c s IH]; [reflexivity|].
  cbn. destruct (isspace c) eqn:Hc; [exact IH|].
  cbn. now rewrite Hc.
Qed.

Lemma rstrip_idemp `{Chars} s : Str.rstrip (Str.rstrip s) = Str.rstrip s.
Proof.
  induction s as [|c s IH]; [reflexivity|].
  rewrite rstrip_cons. destruct (all_space (String c s)) eqn:Hs; [reflexivity|].
  rewrite rstrip_cons. cbn in Hs |- *. now rewrite all_space_rstrip, Hs, IH.
Qed.

Lemma lstrip_suffix `{Chars} s : ∃ w, s = w +:+ Str.lstrip s.
Proof.
  induction s as [|c s [w Hw]]; [now exists ""|].
  cbn. destruct (isspace c).
  - exists (String c w). now rewrite app_cons, <- Hw.
  - now exists "".
Qed.

Lemma rstrip_prefix `{Chars} s : ∃ w, s = Str.rstrip s +:+ w.
Proof.
  induction s as [|c s [w Hw]]; [now exists ""|].
  rewrite rstrip_cons. destruct (all_space (String c s)).
  - now exists (String c s).
  - exists w. now rewrite app_cons, <- Hw.
Qed.

Lemma lstrip_app `{Chars} (a x : string) :
  all_space a = false → Str.lstrip (a +:+ x) = Str.lstrip a +:+ x.
Proof.
  induction a as [|c a IH]; [discriminate|].
  rewrite app_cons. cbn. destruct (isspace c); [exact IH|reflexivity].
Qed.


Lemma strip_lstrip `{Chars} s : Str.strip (Str.lstrip s) = Str.strip s.
Proof. unfold Str.strip. now rewrite lstrip_idemp. Qed.

Lemma strip_rstrip `{Chars} s : Str.strip (Str.rstrip s) = Str.strip s.
Proof.
  unfold Str.strip. induction s as [|c s IH]; [reflexivity|].
  rewrite rstrip_cons. destruct (all_space (String c s)) eqn:Hs.
  - symmetry. now apply strip_blank.
  - cbn [Str.lstrip]. destruct (isspace c) eqn:Hc; [exact IH|].
    rewrite !rstrip_cons. cbn [all_space]. rewrite Hc. cbn. now rewrite rstrip_idemp.
Qed.

(** ** Joined texts *)








Lemma splittable_Forall (sep : string) (items : list string) :
  sep ≠ "" → Forall (separable sep) items → splittable sep items.
Proof.
  intros Hsep. induction items as [|a [|b rest] IH]; intros Hall; [exact I| |].
  - apply separable_find_None; [assumption|]. now apply Forall_inv in Hall.
  - apply Forall_cons in Hall as [Ha Hall]. split; auto.
Qed.




(** ** Optional values *)

(** C6: the optional converter returns [None] for a text that is empty or
    holds whitespace only (and for a missing text), and otherwise the result
    of the base converter on the stripped text. *)
Theorem parse_optional_spec `{Chars} {V} (base : string → result V) :
  parse_optional base None = Return None ∧
  ∀ t : string,
    parse_optional base (Some t) =
    if all_space t then Return None else Some <$> base (Str.strip t).
Proof.
  split; [reflexivity|].
  intros [|c s]; [reflexivity|].
  unfold parse_optional. cbn [Str.truthy fmap option_fmap option_map].
  destruct (all_space (String c s)) eqn:Hs.
  - now rewrite strip_blank.
  - destruct (strip_nonblank _ Hs) as (c' & r & ->). reflexivity.
Qed.

(** ** Patterns *)

(** C9: the three pattern constructors return the inner pattern and the
    separator wrapped textually, for every inner pattern and separator. *)
Theorem cardinality_patterns (p sep : string) :
  Cardinality.make_zero_or_one_pattern p = Return ("(" +:+ p +:+ ")?") ∧
  Cardinality.make_zero_or_more_pattern p sep =
    Return ("(" +:+ p +:+ ")?(\s*" +:+ sep +:+ "\s*(" +:+ p +:+ "))*") ∧
  Cardinality.make_one_or_more_pattern p sep =
    Return ("(" +:+ p +:+ ")(\s*" +:+ sep +:+ "\s*(" +:+ p +:+ "))*").
Proof. repeat split; reflexivity. Qed.

(** The builders attach the pattern of the cardinality to the converter they
    return, over the pattern of the base converter or the default pattern. *)
Lemma with_zero_or_one_built `{Chars} {V} (parse_type : converter string V) :
  with_zero_or_one parse_type =
  Return (Converter (parse_optional (convert parse_type))
            (Some ("(" +:+ pattern_of parse_type +:+ ")?")) None).
Proof. reflexivity. Qed.

Lemma with_zero_or_more_built `{Chars} {V} (parse_type : converter string V)
    (listsep : string) (size : option nat) :
  with_zero_or_more parse_type listsep size =
  Return (Converter (parse_list0 (convert parse_type) listsep)
            (Some ("(" +:+ pattern_of parse_type +:+ ")?(\s*" +:+ listsep +:+
                   "\s*(" +:+ pattern_of parse_type +:+ "))*")) size).
Proof. reflexivity. Qed.

Lemma with_one_or_more_built `{Chars} {V} (parse_type : converter string V)
    (listsep : string) (size : option nat) :
  with_one_or_more parse_type listsep size =
  Return (Converter (parse_list (convert parse_type) listsep)
            (Some ("(" +:+ pattern_of parse_type +:+ ")(\s*" +:+ listsep +:+
                   "\s*(" +:+ pattern_of parse_type +:+ "))*")) size).
Proof. reflexivity. Qed.

Example with_many_numbers :
  let parse_number := Converter (λ t, Return (String.length t)) (Some "\d+") None in
  pattern <$> with_many parse_number "," None =
    Return (Some "(\d+)(\s*,\s*(\d+))*") ∧
  (parse_many ← with_many parse_number "," None; convert parse_many "1, 2, 3") =
    Return [1; 1; 1].
Proof. split; vm_compute; reflexivity. Qed.

(** ** Enumerations *)

Lemma lower_char_idemp c : Python3.lower_char (Python3.lower_char c) = Python3.lower_char c.
Proof. destruct c as [[] [] [] [] [] [] [] []]; reflexivity. Qed.

Lemma python3_lower_idemp s : Python3.lower (Python3.lower s) = Python3.lower s.
Proof.
  induction s as [|c s IH]; [reflexivity|].
  cbn. now rewrite lower_char_idemp, IH.
Qed.

Lemma enum_key_hit `{Chars} {V} (m : gmap string V) t v :
  m !! t = Some v → enum_key m t = t.
Proof.
  intros Hv. unfold enum_key. rewrite bool_decide_eq_false_2; [reflexivity|].
  intros Hn. apply Hn, elem_of_dom. eauto.
Qed.

Lemma enum_key_miss `{Chars} {V} (m : gmap string V) t :
  m !! t = None → enum_key m t = lower t.
Proof.
  intros Hv. unfold enum_key. rewrite bool_decide_eq_true_2; [reflexivity|].
  now apply not_elem_of_dom.
Qed.

(** C3: the enumeration converter returns the value under the text itself
    when the text is a key, else the value under the lowercased text when that
    is a key, else raises [KeyError]; so every key converts to its value. *)
Theorem parse_enum_lookup `{Chars} {V} (m : gmap string V) (t : string) :
  parse_enum m t =
  match m !! t with
  | Some v => Return v
  | None =>
      match m !! lower t with
      | Some v => Return v
      | None => Raise (KeyError (lower t))
      end
  end.
Proof.
  unfold parse_enum, getitem.
  destruct (m !! t) as [v|] eqn:Ht.
  - rewrite (enum_key_hit m t v Ht). now rewrite Ht.
  - now rewrite (enum_key_miss m t Ht).
Qed.

(** C10: the fallback of the enumeration converter only lowercases.  A text
    that is no key and whose lowercase form is no key raises [KeyError]; a key
    that is not its own lowercase form is looked up for no text but itself;
    and converting the lowercase form of a text raises [KeyError] when that
    form is no key.  The last two rest on what [str.lower()] does to a text
    that it has lowercased: it leaves it as it is. *)
Theorem parse_enum_fallback_lowercases_only `{Chars} {V} (m : gmap string V) :
  (∀ t, m !! t = None → m !! lower t = None →
        parse_enum m t = Raise (KeyError (lower t))) ∧
  (∀ k t, lower (lower t) = lower t →
          lower k ≠ k → enum_key m t = k → t = k) ∧
  (∀ k, lower (lower k) = lower k → m !! lower k = None →
        parse_enum m (lower k) = Raise (KeyError (lower k))).
Proof.
  split; [|split].
  - intros t Ht Hl. unfold parse_enum, getitem.
    now rewrite (enum_key_miss m t Ht), Hl.
  - intros k t Hidem Hk Hkey. unfold enum_key in Hkey.
    destruct (bool_decide (t ∉ dom m)); [|assumption].
    exfalso. apply Hk. now rewrite <- Hkey.
  - intros k Hidem Hl. unfold parse_enum, getitem.
    rewrite (enum_key_miss m _ Hl), Hidem. now rewrite Hl.
Qed.

Lemma parse_enum_fallback_lowercases_only_witness :
  parse_enum (V:=bool) {["YES" := true]} "yes" = Raise (KeyError "yes") ∧
  parse_enum (V:=bool) {["YES" := true]} "YES" = Return true.
Proof.
  split.
  - refine (proj2 (proj2 (parse_enum_fallback_lowercases_only (H:=python3)
                            (V:=bool) {["YES" := true]})) "YES" _ _).
    + apply (python3_lower_idemp "YES").
    + vm_compute. reflexivity.
  - vm_compute. reflexivity.
Defined.

(** ** Choices *)

(** C4, as the code has it: the choice converter fails its assertion for a
    text that is not among the choices; for a text among them it returns the
    result of the value converter when one was given and its truth value is
    true, and the text itself otherwise. *)
Theorem parse_choice_spec {V} (choices : list string)
    (value_converter : option (callable V)) (t : string) :
  (t ∉ choices → parse_choice choices value_converter t = Raise AssertionError) ∧
  (t ∈ choices →
     parse_choice choices value_converter t =
     match value_converter with
     | None => Return (inl t)
     | Some f => if truth f then inr <$> call f t else Return (inl t)
     end).
Proof.
  unfold parse_choice. split; intros Ht.
  - now rewrite bool_decide_eq_false_2.
  - rewrite bool_decide_eq_true_2 by assumption.
    now destruct value_converter.
Qed.

Lemma parse_choice_spec_witness :
  parse_choice (V:=nat) ["yes"; "no"] None "maybe" = Raise AssertionError ∧
  parse_choice (V:=nat) ["yes"; "no"] None "yes" = Return (inl "yes") ∧
  parse_choice ["yes"; "no"]
    (Some (Callable (λ t, Return (String.length t)) true)) "yes" =
    Return (inr 3).
Proof.
  split; [|split].
  - apply (proj1 (parse_choice_spec (V:=nat) ["yes"; "no"] None "maybe")).
    apply (bool_decide_unpack _). vm_compute. exact I.
  - apply (proj2 (parse_choice_spec (V:=nat) ["yes"; "no"] None "yes")).
    apply (bool_decide_unpack _). vm_compute. exact I.
  - apply (proj2 (parse_choice_spec ["yes"; "no"]
                    (Some (Callable (λ t, Return (String.length t)) true)) "yes")).
    apply (bool_decide_unpack _). vm_compute. exact I.
Defined.

(** C4, as stated, fails: a value converter that was given but whose truth
    value is false is passed over, and the text comes back as it is. *)
Lemma choice_false_converter_passed_over :
  let f := Callable (λ t, Return (String.length t)) false in
  "yes" ∈ ["yes"; "no"] ∧
  parse_choice ["yes"; "no"] (Some f) "yes" = Return (inl "yes") ∧
  parse_choice ["yes"; "no"] (Some f) "yes" ≠ inr <$> call f "yes".
Proof.
  intros f. split; [apply (bool_decide_unpack _); vm_compute; exact I|].
  split; [vm_compute; reflexivity | vm_compute; discriminate].
Qed.

(** C1, as the code has it: the membership assertion comes first, so the
    empty text gives [None] exactly when the empty text is one of the
    choices, and fails the assertion otherwise. *)
Theorem parse_choice2_empty (choices : list string) :
  parse_choice2 choices "" =
  if bool_decide ("" ∈ choices) then Return None else Raise AssertionError.
Proof.
  unfold parse_choice2. now destruct (bool_decide ("" ∈ choices)).
Qed.

(** C1, as stated, fails: with the choices "yes" and "no" the empty text
    does not give [None], it fails the membership assertion. *)
Lemma choice2_empty_text_asserts :
  parse_choice2 ["yes"; "no"] "" = Raise AssertionError ∧
  parse_choice2 ["yes"; "no"] "" ≠ Return None.
Proof. split; [vm_compute; reflexivity | vm_compute; discriminate]. Qed.

Lemma index_first (choices : list string) (i : nat) (t : string) :
  choices !! i = Some t →
  (∀ j, j < i → choices !! j ≠ Some t) →
  Str.index t choices = Return i.
Proof.
  revert i. induction choices as [|y l IH]; intros i Hi Hfirst; [discriminate|].
  cbn. destruct i as [|i].
  - injection Hi as ->. now rewrite decide_True.
  - rewrite decide_False.
    + rewrite (IH i); [reflexivity|exact Hi|].
      intros j Hj. apply (Hfirst (S j)). lia.
    + intros ->. now apply (Hfirst 0); [lia|].
Qed.

(** C8, as the code has it: a choice that is not the empty text and that
    does not occur at an earlier position converts to its position and
    itself. *)
Theorem parse_choice2_index (choices : list string) (i : nat) (t : string) :
  choices !! i = Some t →
  t ≠ "" →
  (∀ j, j < i → choices !! j ≠ Some t) →
  parse_choice2 choices t = Return (Some (i, t)).
Proof.
  intros Hi Hne Hfirst. unfold parse_choice2.
  rewrite bool_decide_eq_true_2 by (eapply list_elem_of_lookup_2; eassumption).
  destruct t as [|c t]; [congruence|].
  cbn. now rewrite (index_first choices i _ Hi Hfirst).
Qed.

Lemma parse_choice2_index_witness :
  parse_choice2 ["yes"; "no"] "no" = Return (Some (1, "no")).
Proof.
  apply (parse_choice2_index ["yes"; "no"] 1 "no").
  - reflexivity.
  - discriminate.
  - intros [|j] Hj; [discriminate|lia].
Defined.

(** C8, as stated, fails: a choice listed twice converts to its first
    position, and the empty choice converts to [None]. *)
Lemma choice2_duplicate_first_position :
  ["a"; "a"] !! 1 = Some "a" ∧
  parse_choice2 ["a"; "a"] "a" = Return (Some (0, "a")) ∧
  parse_choice2 ["a"; "a"] "a" ≠ Return (Some (1, "a")).
Proof.
  split; [reflexivity|].
  split; [vm_compute; reflexivity | vm_compute; discriminate].
Qed.

(** ** Lists *)

(** C7: the one-or-more converter has no case for a blank text: for a
    separator that [split] accepts, the empty text splits into the one part
    [""], which goes to the base converter. *)
Theorem parse_list_empty_text `{Chars} {V} (base : string → result V) (sep : string) :
  sep ≠ "" →
  parse_list base sep "" = v ← base ""; Return [v].
Proof.
  intros Hsep. unfold parse_list, Str.split.
  rewrite decide_False by assumption.
  cbn. now destruct (base "").
Qed.

Lemma parse_list_empty_text_witness :
  parse_list (λ t, Return (String.length t)) "," "" = Return [0].
Proof.
  apply (parse_list_empty_text (H:=python3) (λ t, Return (String.length t)) ",").
  discriminate.
Defined.

(** C5, as the code has it: the zero-or-more converter returns the empty
    list for a missing or blank text; any other text is stripped first, then
    split at the separator, and each part is stripped and converted, in
    order. *)
Theorem parse_list0_spec `{Chars} {V} (base : string → result V) (sep : string) :
  parse_list0 base sep None = Return [] ∧
  ∀ t : string,
    parse_list0 base sep (Some t) =
    if all_space t then Return []
    else
      parts ← Str.split sep (Str.strip t);
      mapM base (Str.strip <$> parts).
Proof.
  split; [reflexivity|].
  intros [|c s]; [reflexivity|].
  unfold parse_list0. cbn [Str.truthy fmap option_fmap option_map].
  destruct (all_space (String c s)) eqn:Hs.
  - now rewrite strip_blank.
  - destruct (strip_nonblank _ Hs) as (c' & r & ->).
    destruct (Str.split sep (String c' r)); [|reflexivity].
    cbn. apply mapM_compose.
Qed.

(** C5, as stated, fails for a separator of whitespace: the code strips the
    text before it splits, so a leading separator is gone. *)
Lemma list0_strips_before_split :
  parse_list0 Return " " (Some " a") = Return ["a"] ∧
  parse_list0_as_stated Return " " " a" = Return [""; "a"] ∧
  parse_list0 Return " " (Some " a") ≠ parse_list0_as_stated Return " " " a".
Proof.
  split; [vm_compute; reflexivity|].
  split; [vm_compute; reflexivity | vm_compute; discriminate].
Qed.

(** ** Round trip of joined items *)






(** * Further properties *)

(** ** Lists of results *)

Lemma mapM_length {A B} (f : A → result B) (l : list A) (vs : list B) :
  mapM f l = Return vs → length vs = length l.
Proof.
  revert vs. induction l as [|x l IH]; intros vs.
  - cbn. now intros [= <-].
  - cbn. destruct (f x); [|discriminate]. cbn in IH |- *.
    destruct (mapM f l) as [ws|]; [|discriminate].
    cbn. intros [= <-]. cbn. now rewrite (IH ws).
Qed.

Lemma mapM_agree {A B} (f g : A → result B) (l : list A) :
  Forall (λ x, f x = g x) l → mapM f l = mapM g l.
Proof.
  induction 1 as [|x l Hx _ IH]; [reflexivity|].
  cbn. rewrite Hx. destruct (g x); [|reflexivity].
  cbn in IH |- *. now rewrite IH.
Qed.

Lemma mapM_first_Raise {A B} (f : A → result B) (l1 l2 : list A) (x : A) (e : exn) :
  Forall (λ y, ∃ v, f y = Return v) l1 → f x = Raise e →
  mapM f (l1 ++ x :: l2) = Raise e.
Proof.
  intros Hall Hx. induction Hall as [|y l1 [v Hy] _ IH].
  - cbn. now rewrite Hx.
  - cbn. rewrite Hy. cbn in IH |- *. now rewrite IH.
Qed.

(** ** Parts of a split text *)

Lemma length_nonempty (s : string) : s ≠ "" → 0 < String.length s.
Proof. destruct s; [congruence|cbn; lia]. Qed.

Lemma take_drop (n : nat) (s : string) : Str.take n s +:+ Str.drop n s = s.
Proof.
  revert s. induction n as [|n IH]; intros [|c s]; try reflexivity.
  cbn. now rewrite app_cons, IH.
Qed.

Lemma length_take (n : nat) (s : string) : String.length (Str.take n s) ≤ n.
Proof.
  revert s. induction n as [|n IH]; intros [|c s]; cbn; try lia.
  specialize (IH s). lia.
Qed.

Lemma find_take_None (sep s : string) (pos : nat) :
  sep ≠ "" → Str.find sep s = Some pos → Str.find sep (Str.take pos s) = None.
Proof.
  intros Hsep Hpos. destruct (Str.find sep (Str.take pos s)) as [i|] eqn:Hi;
    [|reflexivity].
  pose proof (find_Some_length _ _ _ Hi) as Hlen.
  pose proof (length_take pos s). pose proof (length_nonempty sep Hsep).
  apply (find_app_Some _ _ (Str.drop pos s)) in Hi.
  rewrite take_drop in Hi. assert (i = pos) by congruence. lia.
Qed.

Lemma find_empty_text (sep : string) : sep ≠ "" → Str.find sep "" = None.
Proof. now destruct sep. Qed.

Lemma split_loop_nonnil (n : nat) (sep s : string) : Str.split_loop n sep s ≠ [].
Proof. destruct n; [discriminate|]. cbn. now destruct (Str.find sep s). Qed.

(** No part of a split text holds the separator. *)
Lemma split_loop_parts (sep : string) (n : nat) (s : string) :
  sep ≠ "" → String.length s ≤ n →
  Forall (λ p, Str.find sep p = None) (Str.split_loop n sep s).
Proof.
  intros Hsep. pose proof (length_nonempty sep Hsep) as Hpos.
  revert s. induction n as [|n IH]; intros s Hn.
  - destruct s; [|cbn in Hn; lia]. repeat constructor. now apply find_empty_text.
  - cbn. destruct (Str.find sep s) as [pos|] eqn:Hf.
    + constructor; [now apply find_take_None|].
      apply IH. rewrite length_drop. lia.
    + now repeat constructor.
Qed.

Lemma find_None_strip `{Chars} (sep p : string) :
  Str.find sep p = None → Str.find sep (Str.strip p) = None.
Proof.
  intros Hp. unfold Str.strip.
  destruct (lstrip_suffix p) as [w Hw]. rewrite Hw in Hp.
  apply find_None_suffix in Hp.
  destruct (rstrip_prefix (Str.lstrip p)) as [w' Hw']. rewrite Hw' in Hp.
  now apply find_None_prefix in Hp.
Qed.

Lemma strip_idemp `{Chars} s : Str.strip (Str.strip s) = Str.strip s.
Proof. unfold Str.strip at 2. now rewrite strip_rstrip, strip_lstrip. Qed.

Lemma all_space_strip `{Chars} s : all_space (Str.strip s) = all_space s.
Proof. unfold Str.strip. now rewrite all_space_rstrip, all_space_lstrip. Qed.

Lemma mapM_Raise_first {A B} (f : A → result B) (l : list A) (e : exn) :
  mapM f l = Raise e →
  ∃ l1 x l2, l = l1 ++ x :: l2 ∧
             Forall (λ y, ∃ v, f y = Return v) l1 ∧ f x = Raise e.
Proof.
  induction l as [|x l IH]; [discriminate|].
  cbn. destruct (f x) as [v|e'] eqn:Hx.
  - cbn in IH |- *. destruct (mapM f l) as [ws|e'']; [discriminate|].
    cbn. intros [= ->]. destruct (IH eq_refl) as (l1 & y & l2 & -> & Hall & Hy).
    exists (x :: l1), y, l2. repeat split; [|assumption].
    constructor; eauto.
  - cbn. intros [= ->]. exists [], x, l. repeat split; [constructor|assumption].
Qed.

(** The two converters of lists in terms of [split]. *)
Lemma parse_list_split `{Chars} {V} (base : string → result V) (sep t : string) :
  sep ≠ "" →
  parse_list base sep t =
  mapM (λ p, base (Str.strip p)) (Str.split_loop (String.length t) sep t).
Proof.
  intros Hsep. unfold parse_list, Str.split. now rewrite decide_False.
Qed.

Lemma parse_list_split_strip `{Chars} {V} (base : string → result V)
    (sep t : string) :
  sep ≠ "" →
  parse_list base sep t =
  mapM base (Str.strip <$> Str.split_loop (String.length t) sep t).
Proof.
  intros Hsep. rewrite parse_list_split by assumption. apply mapM_compose.
Qed.

Lemma parse_list0_Some `{Chars} {V} (base : string → result V) (sep t : string) :
  parse_list0 base sep (Some t) =
  if all_space t then Return [] else parse_list base sep (Str.strip t).
Proof.
  destruct t as [|c s]; [reflexivity|].
  unfold parse_list0, parse_list.
  cbn [Str.truthy fmap option_fmap option_map].
  destruct (all_space (String c s)) eqn:Hs.
  - now rewrite strip_blank.
  - now destruct (strip_nonblank _ Hs) as (c' & r & ->).
Qed.

Lemma parse_optional_Some `{Chars} {V} (base : string → result V) (t : string) :
  parse_optional base (Some t) =
  if all_space t then Return None else Some <$> base (Str.strip t).
Proof.
  destruct t as [|c s]; [reflexivity|].
  unfold parse_optional. cbn [Str.truthy fmap option_fmap option_map].
  destruct (all_space (String c s)) eqn:Hs.
  - now rewrite strip_blank.
  - now destruct (strip_nonblank _ Hs) as (c' & r & ->).
Qed.

(** ** What the list converters return *)

Lemma parse_list_nonnil `{Chars} {V} (base : string → result V) (sep t : string)
    (vs : list V) :
  parse_list base sep t = Return vs → vs ≠ [].
Proof.
  unfold parse_list, Str.split. destruct (decide (sep = "")); [discriminate|].
  cbn [mbind result_bind]. intros Hvs ->. apply mapM_length in Hvs.
  pose proof (split_loop_nonnil (String.length t) sep t).
  destruct (Str.split_loop _ sep t); [congruence|discriminate].
Qed.

(** X1: a list that the one-or-more converter returns has an item. *)
Theorem parse_list_has_item `{Chars} {V} (base : string → result V) (sep t : string)
    (vs : list V) :
  parse_list base sep t = Return vs → 1 ≤ length vs.
Proof.
  intros Hvs. apply parse_list_nonnil in Hvs.
  destruct vs; [congruence|cbn; lia].
Qed.

Lemma parse_list_has_item_witness : 1 ≤ length [1; 2].
Proof.
  apply (parse_list_has_item (H:=python3) (λ x, Return (String.length x)) "," "a, bc").
  vm_compute. reflexivity.
Defined.

(** X2: the zero-or-more converter returns the empty list for a blank text
    and for no other text. *)
Theorem parse_list0_empty_iff_blank `{Chars} {V} (base : string → result V)
    (sep t : string) :
  parse_list0 base sep (Some t) = Return [] ↔ all_space t = true.
Proof.
  rewrite parse_list0_Some. destruct (all_space t); split; try done.
  intros Hvs. now apply parse_list_nonnil in Hvs.
Qed.

Lemma parse_list0_empty_iff_blank_witness :
  parse_list0 (λ x, Return (String.length x)) "," (Some "  ") = Return [].
Proof.
  apply (parse_list0_empty_iff_blank (H:=python3) (λ x, Return (String.length x)) "," "  ").
  reflexivity.
Defined.

(** X3: the base converter of a list converter is applied to stripped
    texts without the separator only: two base converters that agree on
    those give the same list converters. *)
Theorem list_base_applied_to_parts `{Chars} {V} (base base' : string → result V)
    (sep : string) :
  (∀ x, stripped x → Str.find sep x = None → base x = base' x) →
  ∀ t, parse_list base sep t = parse_list base' sep t ∧
       parse_list0 base sep (Some t) = parse_list0 base' sep (Some t).
Proof.
  intros Hagree.
  assert (∀ t, parse_list base sep t = parse_list base' sep t) as Hlist.
  { intros t. destruct (decide (sep = "")) as [->|Hsep]; [reflexivity|].
    rewrite !parse_list_split by assumption. apply mapM_agree.
    eapply Forall_impl; [now apply split_loop_parts|].
    intros p Hp. cbn. apply Hagree; [apply strip_idemp|].
    now apply find_None_strip. }
  intros t. split; [apply Hlist|].
  rewrite !parse_list0_Some. now destruct (all_space t).
Qed.

Lemma list_base_applied_to_parts_witness :
  let base := λ x, Return (String.length x) in
  let base' := λ x,
    if bool_decide (Str.strip x = x) then Return (String.length x)
    else Raise (OtherError "not stripped") in
  parse_list base "," "a , bc" = parse_list base' "," "a , bc".
Proof.
  intros base base'.
  apply (list_base_applied_to_parts (H:=python3) base base' ",").
  intros x Hx _. unfold base'. now rewrite bool_decide_eq_true_2.
Defined.

(** X4: the one-or-more converter fails exactly with the failure of the
    first part, in the order of the text, that the base converter rejects. *)
Theorem parse_list_first_failure `{Chars} {V} (base : string → result V)
    (sep t : string) (e : exn) :
  sep ≠ "" →
  parse_list base sep t = Raise e ↔
  ∃ parts1 p parts2,
    Str.split sep t = Return (parts1 ++ p :: parts2) ∧
    Forall (λ q, ∃ v, base (Str.strip q) = Return v) parts1 ∧
    base (Str.strip p) = Raise e.
Proof.
  intros Hsep. rewrite parse_list_split by assumption.
  unfold Str.split. rewrite decide_False by assumption. split.
  - intros (l1 & p & l2 & Hl & Hall & Hp)%mapM_Raise_first.
    exists l1, p, l2. now rewrite Hl.
  - intros (l1 & p & l2 & [= ->] & Hall & Hp).
    now apply (mapM_first_Raise (λ q, base (Str.strip q))).
Qed.

Lemma parse_list_first_failure_witness :
  let base := λ x, if bool_decide (x = "") then Raise (ValueError x)
                   else Return (String.length x) in
  parse_list base "," "a, ,b," = Raise (ValueError "").
Proof.
  intros base.
  apply (parse_list_first_failure (H:=python3) base "," "a, ,b," (ValueError "")); [discriminate|].
  exists ["a"], " ", ["b"; ""]. split; [reflexivity|]. split; [|reflexivity].
  repeat constructor. now exists 1.
Defined.

(** X5: a list converter is built for the empty separator as for any other,
    and then the one-or-more converter fails on every text, and the
    zero-or-more converter on every text that is not blank. *)
Theorem empty_separator_fails `{Chars} {V} (parse_type : converter string V)
    (size : option nat) :
  (∃ c, with_one_or_more parse_type "" size = Return c ∧
        ∀ t, convert c t = Raise (ValueError "empty separator")) ∧
  (∃ c, with_zero_or_more parse_type "" size = Return c ∧
        ∀ t, convert c (Some t) =
             if all_space t then Return []
             else Raise (ValueError "empty separator")).
Proof.
  split; eexists; (split; [reflexivity|]); intros t; cbn [convert].
  - reflexivity.
  - rewrite parse_list0_Some. now destruct (all_space t).
Qed.

(** ** Whitespace around a split text *)

Lemma lstrip_suffix_space `{Chars} s : ∃ w, s = w +:+ Str.lstrip s ∧ all_space w = true.
Proof.
  induction s as [|c s (w & Hw & Hs)]; [now exists ""|].
  cbn. destruct (isspace c) eqn:Hc.
  - exists (String c w). rewrite app_cons, <- Hw. cbn. now rewrite Hc, Hs.
  - now exists "".
Qed.

Lemma rstrip_prefix_space `{Chars} s : ∃ w, s = Str.rstrip s +:+ w ∧ all_space w = true.
Proof.
  induction s as [|c s (w & Hw & Hs)]; [now exists ""|].
  rewrite rstrip_cons. destruct (all_space (String c s)) eqn:Hcs.
  - now exists (String c s).
  - exists w. now rewrite app_cons, <- Hw.
Qed.

Lemma rstrip_app_space `{Chars} (x w : string) :
  all_space w = true → Str.rstrip (x +:+ w) = Str.rstrip x.
Proof.
  intros Hw. induction x as [|c x IH]; [now apply rstrip_empty_iff|].
  rewrite app_cons, !rstrip_cons, IH. cbn.
  now rewrite all_space_app, Hw, andb_true_r.
Qed.

Lemma strip_app_space `{Chars} (p w : string) :
  all_space w = true → Str.strip (p +:+ w) = Str.strip p.
Proof.
  intros Hw. destruct (all_space p) eqn:Hp.
  - rewrite !strip_blank; [reflexivity|assumption|].
    now rewrite all_space_app, Hp, Hw.
  - unfold Str.strip. now rewrite lstrip_app, rstrip_app_space.
Qed.

Lemma strip_cons_space `{Chars} c (p : string) :
  isspace c = true → Str.strip (String c p) = Str.strip p.
Proof. intros Hc. unfold Str.strip. cbn. now rewrite Hc. Qed.

Lemma length_strip `{Chars} s : String.length (Str.strip s) ≤ String.length s.
Proof.
  unfold Str.strip.
  destruct (lstrip_suffix s) as [w Hw].
  destruct (rstrip_prefix (Str.lstrip s)) as [w' Hw'].
  rewrite Hw at 2. rewrite Hw' at 2. rewrite !length_app. lia.
Qed.

Lemma take_app_le (n : nat) (s w : string) :
  n ≤ String.length s → Str.take n (s +:+ w) = Str.take n s.
Proof.
  revert s. induction n as [|n IH]; intros s Hn; [now destruct s, w|].
  destruct s as [|c s]; [cbn in Hn; lia|].
  rewrite app_cons. cbn. rewrite IH; [reflexivity|]. cbn in Hn. lia.
Qed.

Lemma drop_app_le (n : nat) (s w : string) :
  n ≤ String.length s → Str.drop n (s +:+ w) = Str.drop n s +:+ w.
Proof.
  revert s. induction n as [|n IH]; intros s Hn; [now destruct s, w|].
  destruct s as [|c s]; [cbn in Hn; lia|].
  rewrite app_cons. cbn. apply IH. cbn in Hn. lia.
Qed.

Lemma startswith_space_solid `{Chars} (w sep : string) :
  all_space w = true → ends_solid sep = true → Str.startswith w sep = false.
Proof.
  revert sep. induction w as [|b w IH]; intros [|a sep] Hw Hsep; try done.
  cbn in Hw. apply andb_prop in Hw as [Hb Hw]. cbn.
  destruct sep as [|a' sep].
  - cbn in Hsep. destruct (Ascii.eqb_spec a b) as [->|]; [|reflexivity].
    now rewrite Hb in Hsep.
  - rewrite (IH (String a' sep)) by assumption. apply andb_false_r.
Qed.

Lemma startswith_app_space `{Chars} (s w sep : string) :
  all_space w = true → ends_solid sep = true →
  Str.startswith (s +:+ w) sep = Str.startswith s sep.
Proof.
  intros Hw. revert sep. induction s as [|b s IH]; intros sep Hsep.
  - change ("" +:+ w) with w.
    rewrite (startswith_space_solid w sep) by assumption. now destruct sep.
  - destruct sep as [|a sep]; [discriminate|].
    rewrite app_cons. cbn. destruct sep as [|a' sep]; [now destruct s, w|].
    now rewrite IH.
Qed.

Lemma find_space_solid `{Chars} (w sep : string) :
  all_space w = true → ends_solid sep = true → Str.find sep w = None.
Proof.
  intros Hw Hsep. induction w as [|b w IH].
  - now destruct sep.
  - rewrite find_cons, startswith_space_solid by assumption.
    cbn in Hw. apply andb_prop in Hw as [_ Hw]. now rewrite IH.
Qed.

Lemma find_app_space `{Chars} (s w sep : string) :
  all_space w = true → ends_solid sep = true →
  Str.find sep (s +:+ w) = Str.find sep s.
Proof.
  intros Hw Hsep. induction s as [|b s IH].
  - change ("" +:+ w) with w.
    rewrite (find_space_solid w sep) by assumption. now destruct sep.
  - rewrite app_cons, !find_cons, <- app_cons, startswith_app_space by assumption.
    now rewrite IH.
Qed.

Lemma app_last_cons (w p : string) (parts : list string) :
  parts ≠ [] → app_last w (p :: parts) = p :: app_last w parts.
Proof. now destruct parts. Qed.

Lemma split_loop_app_space `{Chars} (n : nat) (sep s w : string) :
  all_space w = true → ends_solid sep = true →
  Str.split_loop n sep (s +:+ w) = app_last w (Str.split_loop n sep s).
Proof.
  intros Hw Hsep. revert s. induction n as [|n IH]; intros s; [reflexivity|].
  cbn [Str.split_loop]. rewrite find_app_space by assumption.
  destruct (Str.find sep s) as [pos|] eqn:Hpos; [|reflexivity].
  apply find_Some_length in Hpos.
  rewrite app_last_cons by apply split_loop_nonnil.
  rewrite take_app_le, drop_app_le, IH by lia. reflexivity.
Qed.

Lemma map_strip_app_last `{Chars} (w : string) (parts : list string) :
  all_space w = true → Str.strip <$> app_last w parts = Str.strip <$> parts.
Proof.
  intros Hw. induction parts as [|p [|q parts] IH]; [reflexivity| |].
  - cbn [app_last]. rewrite !fmap_cons. now rewrite strip_app_space.
  - rewrite app_last_cons by discriminate.
    rewrite !fmap_cons, <- (fmap_cons Str.strip q parts). now rewrite IH.
Qed.

Lemma split_loop_cons_space `{Chars} (n : nat) (sep : string) c (s : string) :
  isspace c = true → starts_solid sep = true →
  Str.split_loop n sep (String c s) = cons_head c (Str.split_loop n sep s).
Proof.
  intros Hc Hsep. destruct n as [|n]; [reflexivity|].
  cbn [Str.split_loop]. rewrite find_cons.
  assert (Str.startswith (String c s) sep = false) as ->.
  { destruct sep as [|a sep]; [discriminate|]. cbn in Hsep |- *.
    destruct (Ascii.eqb_spec a c) as [->|]; [|reflexivity].
    now rewrite Hc in Hsep. }
  now destruct (Str.find sep s).
Qed.

Lemma map_strip_cons_head `{Chars} c (parts : list string) :
  isspace c = true → Str.strip <$> cons_head c parts = Str.strip <$> parts.
Proof.
  intros Hc. destruct parts as [|p parts]; [reflexivity|].
  unfold cons_head. rewrite !fmap_cons. now rewrite strip_cons_space.
Qed.

Lemma map_strip_split_lstrip `{Chars} (n : nat) (sep s : string) :
  starts_solid sep = true →
  Str.strip <$> Str.split_loop n sep s =
  Str.strip <$> Str.split_loop n sep (Str.lstrip s).
Proof.
  intros Hsep. induction s as [|c s IH]; [reflexivity|].
  cbn [Str.lstrip]. destruct (isspace c) eqn:Hc; [|reflexivity].
  now rewrite split_loop_cons_space, map_strip_cons_head.
Qed.

(** The stripped parts of a text are those of the stripped text, for a
    separator with no whitespace at its ends. *)
Lemma map_strip_split_strip `{Chars} (sep s : string) :
  starts_solid sep = true → ends_solid sep = true →
  Str.strip <$> Str.split_loop (String.length s) sep s =
  Str.strip <$> Str.split_loop (String.length (Str.strip s)) sep (Str.strip s).
Proof.
  intros Hs He. assert (sep ≠ "") as Hne by now destruct sep.
  rewrite (split_loop_fuel sep (String.length (Str.strip s)) (String.length s))
    by (assumption || apply length_strip || lia).
  rewrite map_strip_split_lstrip by assumption.
  change (Str.strip s) with (Str.rstrip (Str.lstrip s)).
  destruct (rstrip_prefix_space (Str.lstrip s)) as (w & Hw & Hspace).
  rewrite Hw at 1. now rewrite split_loop_app_space, map_strip_app_last.
Qed.

(** X6: for a separator without whitespace at its ends, such as the default
    [","], the two list converters agree on every text that is not blank; on a
    blank text the zero-or-more converter returns the empty list and the
    one-or-more converter hands the empty text to the base converter. *)
Theorem list_converters_agree `{Chars} {V} (base : string → result V) (sep t : string) :
  starts_solid sep = true → ends_solid sep = true →
  (all_space t = false → parse_list0 base sep (Some t) = parse_list base sep t) ∧
  (all_space t = true →
   parse_list0 base sep (Some t) = Return [] ∧
   parse_list base sep t = v ← base ""; Return [v]).
Proof.
  intros Hs He. assert (sep ≠ "") as Hne by now destruct sep.
  rewrite parse_list0_Some. split; intros Ht; rewrite Ht.
  - rewrite !parse_list_split_strip by assumption.
    now rewrite <- map_strip_split_strip.
  - split; [reflexivity|]. rewrite parse_list_split by assumption.
    rewrite split_loop_None by now apply find_space_solid.
    cbn. rewrite strip_blank by assumption. now destruct (base "").
Qed.

Lemma list_converters_agree_witness :
  let base := λ x, Return (String.length x) in
  parse_list0 base "," (Some " 1, 22 ") = parse_list base "," " 1, 22 ".
Proof.
  intros base.
  apply (list_converters_agree (H:=python3) base "," " 1, 22 "); reflexivity.
Defined.

(** X7: a text without the separator that is not blank is one item: the
    three converters of a cardinality apply the base converter to the
    stripped text, once. *)
Theorem single_item `{Chars} {V} (base : string → result V) (sep t : string) :
  sep ≠ "" → Str.find sep t = None → all_space t = false →
  parse_list base sep t = (λ v, [v]) <$> base (Str.strip t) ∧
  parse_list0 base sep (Some t) = (λ v, [v]) <$> base (Str.strip t) ∧
  parse_optional base (Some t) = Some <$> base (Str.strip t).
Proof.
  intros Hsep Hfind Ht.
  assert (∀ s, Str.find sep s = None →
               parse_list base sep s = (λ v, [v]) <$> base (Str.strip s)) as Hone.
  { intros s Hs. rewrite parse_list_split, split_loop_None by assumption.
    cbn. now destruct (base (Str.strip s)). }
  split; [now apply Hone|]. split.
  - rewrite parse_list0_Some, Ht, Hone, strip_idemp; [reflexivity|].
    now apply find_None_strip.
  - now rewrite parse_optional_Some, Ht.
Qed.

Lemma single_item_witness :
  let base := λ x, Return (String.length x) in
  parse_list base "," " abc " = Return [3] ∧
  parse_list0 base "," (Some " abc ") = Return [3] ∧
  parse_optional base (Some " abc ") = Return (Some 3).
Proof.
  intros base. apply (single_item (H:=python3) base "," " abc "); [discriminate|reflexivity..].
Defined.

(** ** Whitespace around the text *)

(** X8: whitespace around the whole text changes nothing for the optional
    and the zero-or-more converter, and a missing text converts as the empty
    text does. *)
Theorem outer_whitespace_ignored `{Chars} {V} (base : string → result V) (sep t : string) :
  parse_optional base (Some t) = parse_optional base (Some (Str.strip t)) ∧
  parse_list0 base sep (Some t) = parse_list0 base sep (Some (Str.strip t)) ∧
  parse_optional base None = parse_optional base (Some "") ∧
  parse_list0 base sep None = parse_list0 base sep (Some "").
Proof.
  rewrite !parse_optional_Some, !parse_list0_Some.
  now rewrite all_space_strip, strip_idemp.
Qed.

(** X9: the optional converter applies the base converter to stripped text
    that is not empty only: two base converters that agree on such text give
    the same optional converter. *)
Theorem optional_base_applied_to_stripped `{Chars} {V} (base base' : string → result V) :
  (∀ x, x ≠ "" → stripped x → base x = base' x) →
  ∀ text, parse_optional base text = parse_optional base' text.
Proof.
  intros Hagree [t|]; [|reflexivity].
  rewrite !parse_optional_Some. destruct (all_space t) eqn:Ht; [reflexivity|].
  rewrite Hagree; [reflexivity| |apply strip_idemp].
  intros Hs. apply strip_empty_iff in Hs. congruence.
Qed.

Lemma optional_base_applied_to_stripped_witness :
  let base := λ x, Return (String.length x) in
  let base' := λ x,
    if bool_decide (x ≠ "" ∧ Str.strip x = x) then Return (String.length x)
    else Raise (OtherError "blank or not stripped") in
  parse_optional base (Some "  ab ") = parse_optional base' (Some "  ab ").
Proof.
  intros base base'.
  apply (optional_base_applied_to_stripped (H:=python3) base base').
  intros x Hne Hx. unfold base'. now rewrite bool_decide_eq_true_2.
Defined.

(** ** Enumerations with lowercase names *)

Lemma parse_enum_lowercase_keys `{Chars} {V} (m : gmap string V) (t : string) :
  (∀ k, k ∈ dom m → lower k = k) →
  parse_enum m t = getitem m (lower t).
Proof.
  intros Hkeys. unfold parse_enum, enum_key.
  destruct (bool_decide (t ∉ dom m)) eqn:Ht; [reflexivity|].
  apply bool_decide_eq_false in Ht. apply dec_stable in Ht.
  now rewrite (Hkeys t Ht).
Qed.

(** X10: when every name of the mapping is in lowercase, the enumeration
    converter ignores case: texts with the same lowercase form convert
    alike. *)
Theorem parse_enum_ignores_case `{Chars} {V} (m : gmap string V) (t t' : string) :
  (∀ k, k ∈ dom m → lower k = k) →
  lower t = lower t' →
  parse_enum m t = parse_enum m t'.
Proof.
  intros Hkeys Heq. rewrite !parse_enum_lowercase_keys by assumption.
  now rewrite Heq.
Qed.

Lemma parse_enum_ignores_case_witness :
  parse_enum (V:=bool) {["yes" := true; "no" := false]} "YES" =
  parse_enum (V:=bool) {["yes" := true; "no" := false]} "Yes".
Proof.
  apply (parse_enum_ignores_case (H:=python3) (V:=bool)); [|reflexivity].
  intros k Hk. apply elem_of_dom in Hk as [v Hv].
  apply lookup_insert_Some in Hv as [[<- _]|[_ Hv]]; [reflexivity|].
  now apply lookup_singleton_Some in Hv as [<- _].
Defined.

(** ** Positions of choices *)

Lemma index_member (choices : list string) (t : string) :
  t ∈ choices →
  ∃ i, Str.index t choices = Return i ∧ choices !! i = Some t ∧
       ∀ j, j < i → choices !! j ≠ Some t.
Proof.
  induction choices as [|y l IH]; intros Hin; [now apply elem_of_nil in Hin|].
  cbn. destruct (decide (y = t)) as [->|Hne].
  - exists 0. repeat split. intros j Hj. lia.
  - apply elem_of_cons in Hin as [->|Hin]; [congruence|].
    destruct (IH Hin) as (i & Hi & Hlook & Hfirst). exists (S i).
    rewrite Hi. repeat split; [assumption|].
    intros [|j] Hj; cbn; [congruence|]. apply Hfirst. lia.
Qed.

(** X11: the choice-index converter fails in one way only, the failed
    assertion, and only for a text that is not among the choices; the search
    for the position never fails. *)
Theorem parse_choice2_fails_iff (choices : list string) (t : string) (e : exn) :
  parse_choice2 choices t = Raise e ↔ e = AssertionError ∧ t ∉ choices.
Proof.
  unfold parse_choice2. destruct (bool_decide (t ∈ choices)) eqn:Hin.
  - apply bool_decide_eq_true in Hin. cbn [py_assert mbind result_bind].
    split; [|now intros [_ Hn]].
    destruct t as [|c t]; [discriminate|]. cbn [Str.truthy negb].
    destruct (index_member choices _ Hin) as (i & -> & _). discriminate.
  - apply bool_decide_eq_false in Hin. cbn. split; [now intros [= <-]|].
    now intros [-> _].
Qed.

Lemma parse_choice2_fails_iff_witness :
  parse_choice2 ["yes"; "no"] "YES" = Raise AssertionError.
Proof.
  apply (parse_choice2_fails_iff ["yes"; "no"] "YES" AssertionError).
  split; [reflexivity|]. apply (bool_decide_unpack _). vm_compute. exact I.
Defined.

(** X12: a pair that the choice-index converter returns holds the text
    itself and the first position of the text among the choices. *)
Theorem parse_choice2_locates (choices : list string) (t s : string) (i : nat) :
  parse_choice2 choices t = Return (Some (i, s)) →
  s = t ∧ t ≠ "" ∧ choices !! i = Some t ∧ i < length choices ∧
  ∀ j, j < i → choices !! j ≠ Some t.
Proof.
  unfold parse_choice2. destruct (bool_decide (t ∈ choices)) eqn:Hin;
    [|discriminate].
  apply bool_decide_eq_true in Hin. cbn [py_assert mbind result_bind].
  destruct t as [|c t]; [discriminate|]. cbn [Str.truthy negb].
  destruct (index_member choices _ Hin) as (k & -> & Hlook & Hfirst).
  cbn. intros [= <- <-]. repeat split; try done.
  now apply lookup_lt_Some in Hlook.
Qed.

Lemma parse_choice2_locates_witness :
  ["a"; "b"; "a"; "b"] !! 1 = Some "b" ∧ 1 < length ["a"; "b"; "a"; "b"].
Proof.
  destruct (parse_choice2_locates ["a"; "b"; "a"; "b"] "b" "b" 1)
    as (_ & _ & Hlook & Hlen & _); [vm_compute; reflexivity|].
  split; assumption.
Defined.

(** ** Built converters *)

(** X13: [max_size] is kept on the built list converter and not enforced:
    the converter built with a bound has the pattern of, and converts every
    text as, the converter built without one. *)
Theorem max_size_not_enforced `{Chars} {V} (parse_type : converter string V)
    (listsep : string) (size : option nat) :
  (∃ c c0, with_one_or_more parse_type listsep size = Return c ∧
           with_one_or_more parse_type listsep None = Return c0 ∧
           max_size c = size ∧ pattern c = pattern c0 ∧
           ∀ t, convert c t = convert c0 t) ∧
  (∃ c c0, with_zero_or_more parse_type listsep size = Return c ∧
           with_zero_or_more parse_type listsep None = Return c0 ∧
           max_size c = size ∧ pattern c = pattern c0 ∧
           ∀ t, convert c t = convert c0 t).
Proof. split; do 2 eexists; repeat split; reflexivity. Qed.

(** X14: a base converter that carries no pattern is wrapped over the
    default pattern [.+?], whatever it converts. *)
Theorem default_pattern_wrapped `{Chars} {V} (f : string → result V) (listsep : string)
    (size : option nat) :
  let parse_type := Converter f None None in
  pattern <$> with_zero_or_one parse_type = Return (Some "(.+?)?") ∧
  pattern <$> with_zero_or_more parse_type listsep size =
    Return (Some ("(.+?)?(\s*" +:+ listsep +:+ "\s*(.+?))*")) ∧
  pattern <$> with_one_or_more parse_type listsep size =
    Return (Some ("(.+?)(\s*" +:+ listsep +:+ "\s*(.+?))*")).
Proof. repeat split; reflexivity. Qed.

(** ** Number of items *)

Lemma find_char_count c (s : string) :
  match Str.find (String c "") s with
  | None => count_char c s = 0
  | Some pos => count_char c s = S (count_char c (Str.drop (pos + 1) s))
  end.
Proof.
  induction s as [|b s IH]; [reflexivity|].
  rewrite find_cons. cbn [count_char].
  replace (Str.startswith (String b s) (String c "")) with (Ascii.eqb c b)
    by (cbn; now destruct (Ascii.eqb c b), s).
  destruct (Ascii.eqb c b); [reflexivity|].
  destruct (Str.find (String c "") s) as [pos|]; cbn; assumption.
Qed.

Lemma split_loop_char_length c (n : nat) (s : string) :
  String.length s ≤ n →
  length (Str.split_loop n (String c "") s) = S (count_char c s).
Proof.
  revert s. induction n as [|n IH]; intros s Hn.
  - now destruct s; [|cbn in Hn; lia].
  - cbn [Str.split_loop]. pose proof (find_char_count c s) as Hc.
    destruct (Str.find (String c "") s) as [pos|]; [|now rewrite Hc].
    cbn [length String.length]. rewrite Hc, IH; [reflexivity|].
    rewrite length_drop. lia.
Qed.

(** X15: for a separator of one character, the one-or-more converter
    returns one item more than the text holds separators: separators side by
    side, or at an end of the text, make empty parts that go to the base
    converter like any other. *)
Theorem parse_list_counts_separators `{Chars} {V} (base : string → result V) c
    (t : string) (vs : list V) :
  parse_list base (String c "") t = Return vs →
  length vs = S (count_char c t).
Proof.
  rewrite parse_list_split by discriminate. intros Hvs.
  apply mapM_length in Hvs. rewrite Hvs. now apply split_loop_char_length.
Qed.

Lemma parse_list_counts_separators_witness :
  length [1; 0; 1; 0] = S (count_char "," "a,,b,").
Proof.
  apply (parse_list_counts_separators (H:=python3) (λ x, Return (String.length x)) ","%char "a,,b,").
  vm_compute. reflexivity.
Defined.

(** ** Patterns of the selections *)

Lemma split_join_bar (parts : list string) :
  parts ≠ [] → Forall (λ p, Str.find "|" p = None) parts →
  Str.split "|" (Str.join "|" parts) = Return parts.
Proof.
  intros Hne Hall. apply split_join; [discriminate|assumption|].
  apply splittable_Forall; [discriminate|].
  eapply Forall_impl; [exact Hall|]. intros p Hp. now apply separable_char.
Qed.

(** X16: a choice converter and a choice-index converter of the same
    choices carry the same pattern, whatever the choices; cut at each [|] it
    gives back the choices, in their order, when there is a choice and no
    choice holds a [|]. *)
Theorem choice_pattern_lists_choices {V} (choices : list string)
    (value_converter : option (callable V)) :
  pattern (make_choice choices value_converter) = pattern (make_choice2 choices) ∧
  (choices ≠ [] → Forall (λ c, Str.find "|" c = None) choices →
   ∃ p, pattern (make_choice choices value_converter) = Some p ∧
        pattern (make_choice2 choices) = Some p ∧
        Str.split "|" p = Return choices).
Proof.
  split; [reflexivity|]. intros Hne Hall. exists (Str.join "|" choices).
  repeat split. now apply split_join_bar.
Qed.

Lemma choice_pattern_lists_choices_witness :
  ∃ p, pattern (make_choice (V:=nat) ["yes"; "no"; "maybe"] None) = Some p ∧
       pattern (make_choice2 ["yes"; "no"; "maybe"]) = Some p ∧
       Str.split "|" p = Return ["yes"; "no"; "maybe"].
Proof.
  apply (proj2 (choice_pattern_lists_choices (V:=nat) ["yes"; "no"; "maybe"] None));
    [discriminate|].
  repeat constructor.
Defined.

(** X17: the converter that [make_enum] builds from items with distinct
    names converts each name to its value, and its pattern, cut at each [|],
    gives back the names in the order of the items when no name holds a [|]. *)
Theorem make_enum_names `{Chars} {V} (enum_mappings : list (string * V)) :
  NoDup enum_mappings.*1 →
  (∀ k v, (k, v) ∈ enum_mappings →
          convert (make_enum enum_mappings) k = Return v) ∧
  (enum_mappings ≠ [] →
   Forall (λ k, Str.find "|" k = None) enum_mappings.*1 →
   ∃ p, pattern (make_enum enum_mappings) = Some p ∧
        Str.split "|" p = Return enum_mappings.*1).
Proof.
  intros Hnodup. split.
  - intros k v Hin. cbn [make_enum convert]. unfold parse_enum, getitem.
    pose proof (elem_of_list_to_map_1 (M:=gmap string) _ _ _ Hnodup Hin) as Hv.
    now rewrite (enum_key_hit _ _ _ Hv), Hv.
  - intros Hne Hall. exists (Str.join "|" enum_mappings.*1).
    split; [reflexivity|]. apply split_join_bar; [|assumption].
    now destruct enum_mappings.
Qed.

Lemma make_enum_names_witness :
  convert (make_enum [("yes", true); ("no", false)]) "no" = Return false.
Proof.
  apply (make_enum_names (H:=python3) [("yes", true); ("no", false)]).
  - apply (bool_decide_unpack _). vm_compute. exact I.
  - apply (bool_decide_unpack _). vm_compute. exact I.
Defined.
